(** * Time series store of the finance-dashboard data managers

    Shallow embedding of [update_data], [load_stored_data], [save_data] and
    [get_latest_price] from [scripts/crypto_data_manager.py] (the PSX and
    SPX500 managers share the same merge code), and of the volume parser
    [parse_volume] from [scripts/spx500_data_manager.py].

    Modelling choices:
    - a calendar date is a day number in [Z]; pandas' [NaT] only arises as
      the maximum of an empty column and is modelled by [None];
    - prices and volumes are Python floats; they are only copied around by
      the merge code and are modelled as exact rationals [Q];
    - the Parquet file of one instrument is a [File]: absent, present but
      unreadable, or holding a table; [to_parquet] either succeeds or fails,
      which is a flag of the world ([disk_ok]);
    - [DataFrame.sort_values("date")] is modelled as a stable insertion sort
      on the date column. *)

From Stdlib Require Import String Ascii.
From Stdlib Require Import List Bool ZArith QArith Sorting Permutation Lia.
Import ListNotations.
Open Scope Z_scope.

(** ** Data model *)

Definition Date := Z.

(** One row of the stored DataFrame; missing numeric cells are [None]
    (pandas NaN). *)
Record Row := mkRow {
  date : Date;
  open : option Q;
  high : option Q;
  low : option Q;
  close : option Q;
  volume : option Q
}.

Definition Table := list Row.

(** The Parquet file of one instrument. *)
Inductive File :=
| Absent
| Corrupt
| Stored (t : Table).

(** Lines printed to stderr. *)
Inductive Diag :=
| LoadError
| SaveError.

Record World := mkWorld {
  file : File;
  disk_ok : bool;
  stderr : list Diag
}.

(** A small state monad over the world. *)
Definition M (A : Type) := World -> A * World.

Definition ret {A} (a : A) : M A := fun w => (a, w).
Definition bind {A B} (m : M A) (k : A -> M B) : M B :=
  fun w => let (a, w') := m w in k a w'.

Notation "x <- m ;; k" := (bind m (fun x => k))
  (at level 61, m at next level, right associativity).

Definition log (d : Diag) (w : World) : World :=
  mkWorld (file w) (disk_ok w) (stderr w ++ [d]).

(** ** pandas operations on the date column *)

Definition insert_by_date (r : Row) : Table -> Table :=
  fix ins t :=
    match t with
    | [] => [r]
    | r' :: t' => if date r <=? date r' then r :: t else r' :: ins t'
    end.

(** [df.sort_values("date")], as a stable sort. pandas' default quicksort
    is not stable: on long tables rows that share a date may come out in
    another order, so only results that hold for every sort by date are
    independent of this choice. *)
Fixpoint sort_values (t : Table) : Table :=
  match t with
  | [] => []
  | r :: t' => insert_by_date r (sort_values t')
  end.

(** [df.drop_duplicates(subset=["date"], keep="last")]: a row is kept when
    no later row has the same date; kept rows stay in their order. *)
Fixpoint drop_duplicates_last (t : Table) : Table :=
  match t with
  | [] => []
  | r :: t' =>
      if existsb (fun r' => date r' =? date r) t'
      then drop_duplicates_last t'
      else r :: drop_duplicates_last t'
  end.

(** [df["date"].max()]; [None] is [NaT] for an empty column. *)
Fixpoint max_date (t : Table) : option Date :=
  match t with
  | [] => None
  | r :: t' =>
      match max_date t' with
      | None => Some (date r)
      | Some m => Some (Z.max (date r) m)
      end
  end.

(** [d > m] on timestamps; any comparison with [NaT] is false. *)
Definition date_gt (d : Date) (m : option Date) : bool :=
  match m with
  | None => false
  | Some m => m <? d
  end.

(** ** Storage *)

(** [load_stored_data]: a missing file gives [None]; a file that
    [read_parquet] cannot parse prints an error and gives [None]. *)
Definition load_stored_data : M (option Table) :=
  fun w =>
    match file w with
    | Absent => (None, w)
    | Corrupt => (None, log LoadError w)
    | Stored t => (Some t, w)
    end.

(** [save_data]: [to_parquet] rewrites the whole file, or fails and prints
    an error. A failure is modelled as leaving the file as it was; a write
    that fails part way may in fact truncate or remove it. *)
Definition save_data (t : Table) : M bool :=
  fun w =>
    if disk_ok w
    then (true, mkWorld (Stored t) (disk_ok w) (stderr w))
    else (false, log SaveError w).

(** ** update_data *)

Inductive Status := Success | Error.

Inductive Message :=
| FetchFailed
| InitialSaved
| SaveFailed
| NoNewData
| Added (n : nat).

(** The JSON object returned by [update_data]. [new_records_count] and
    [latest_date] are [None] when the key is absent; the inner [None] of
    [latest_date] is [null] (or the isoformat of [NaT]). *)
Record UpdateResult := mkResult {
  status : Status;
  message : Message;
  records_count : nat;
  new_records_count : option nat;
  latest_date : option (option Date)
}.

(** [update_data(symbol, force_refresh)]. The fetched batch is the value
    returned by [fetch_from_api], [None] when the fetch failed. *)
Definition update_data (force_refresh : bool) (api_data : option (list Row))
  : M UpdateResult :=
  stored_df <- (if negb force_refresh then load_stored_data else ret None) ;;
  match api_data with
  | None | Some [] =>
      ret (mkResult Error FetchFailed 0 None None)
  | Some rows =>
      let df_new := sort_values rows in
      match stored_df with
      | None =>
          saved <- save_data df_new ;;
          ret (mkResult (if saved then Success else Error)
                 (if saved then InitialSaved else SaveFailed)
                 (length df_new) None
                 (Some (max_date df_new)))
      | Some s =>
          let stored_latest_date := max_date s in
          let new_records :=
            filter (fun r => date_gt (date r) stored_latest_date) df_new in
          if Nat.eqb (length new_records) 0 then
            ret (mkResult Success NoNewData (length s) (Some 0%nat)
                   (Some stored_latest_date))
          else
            let df_combined :=
              sort_values (drop_duplicates_last (s ++ new_records)) in
            saved <- save_data df_combined ;;
            ret (mkResult (if saved then Success else Error)
                   (if saved then Added (length new_records) else SaveFailed)
                   (length df_combined) (Some (length new_records))
                   (Some (max_date df_combined)))
      end
  end.

(** ** get_latest_price *)

(** The flat quote; a NaN cell becomes [null] ([None]). *)
Record Quote := mkQuote {
  q_date : option Date;
  q_close : option Q;
  q_open : option Q;
  q_high : option Q;
  q_low : option Q;
  q_volume : option Q
}.

(** [float(x) if pd.notna(x) else None] for every column of the row. *)
Definition project (r : Row) : Quote :=
  mkQuote (Some (date r)) (close r) (open r) (high r) (low r) (volume r).

(** [get_latest_price(symbol)]: [df.iloc[-1]] of the loaded table. *)
Definition get_latest_price : M (option Quote) :=
  df <- load_stored_data ;;
  match df with
  | None | Some [] => ret None
  | Some (r :: t) => ret (Some (project (last (r :: t) r)))
  end.

(** ** parse_volume (spx500_data_manager.py) *)

Definition is_space (c : ascii) : bool :=
  let n := nat_of_ascii c in
  ((9 <=? n) && (n <=? 13))%nat || ((28 <=? n) && (n <=? 32))%nat.

Fixpoint lstrip (l : list ascii) : list ascii :=
  match l with
  | c :: l' => if is_space c then lstrip l' else l
  | [] => []
  end.

(** [s.strip()] *)
Definition strip (s : string) : string :=
  string_of_list_ascii (rev (lstrip (rev (lstrip (list_ascii_of_string s))))).

Definition upper_char (c : ascii) : ascii :=
  let n := nat_of_ascii c in
  if ((97 <=? n) && (n <=? 122))%nat then ascii_of_nat (n - 32) else c.

(** [s.upper()] on ASCII text. *)
Definition upper (s : string) : string :=
  string_of_list_ascii (map upper_char (list_ascii_of_string s)).

(** [s.replace(c, "")] *)
Definition remove_char (c : ascii) (s : string) : string :=
  string_of_list_ascii
    (filter (fun c' => negb (Ascii.eqb c' c)) (list_ascii_of_string s)).

(** [s.endswith(c)] *)
Definition ends_with (c : ascii) (s : string) : bool :=
  match rev (list_ascii_of_string s) with
  | c' :: _ => Ascii.eqb c' c
  | [] => false
  end.

Definition digit_val (c : ascii) : option Z :=
  let n := nat_of_ascii c in
  if ((48 <=? n) && (n <=? 57))%nat then Some (Z.of_nat (n - 48)) else None.

(** A maximal run of decimal digits: its value, its length, the rest. *)
Fixpoint digits (l : list ascii) (acc : Z) (n : nat) : Z * nat * list ascii :=
  match l with
  | c :: l' =>
      match digit_val c with
      | Some d => digits l' (10 * acc + d) (S n)
      | None => (acc, n, l)
      end
  | [] => (acc, n, l)
  end.

Definition sign_of (l : list ascii) : Z * list ascii :=
  match l with
  | "-"%char :: l' => (-1, l')
  | "+"%char :: l' => (1, l')
  | _ => (1, l)
  end.

(** Python's [float(s)] on decimal literals
    [[sign] digits [. digits] [(e|E) [sign] digits]] surrounded by
    whitespace; [None] is the [ValueError]. The value is the exact rational
    (the volumes below are exactly representable as binary64). The
    spellings [inf], [nan] and digit groups with [_] are not modelled. *)
Definition py_float (s : string) : option Q :=
  let l := list_ascii_of_string (strip s) in
  let (sg, l1) := sign_of l in
  match digits l1 0 0 with
  | (ip, ni, l2) =>
      match (match l2 with
             | "."%char :: l' => digits l' 0 0
             | _ => (0, 0%nat, l2)
             end) with
      | (fp, nf, l3) =>
          let exp :=
            match l3 with
            | [] => Some 0
            | e :: l4 =>
                if Ascii.eqb e "e"%char || Ascii.eqb e "E"%char then
                  let (es, l5) := sign_of l4 in
                  match digits l5 0 0 with
                  | (ev, ne, []) => if Nat.eqb ne 0 then None else Some (es * ev)
                  | _ => None
                  end
                else None
            end in
          if Nat.eqb (ni + nf) 0 then None else
          match exp with
          | None => None
          | Some ex =>
              let m := sg * (ip * 10 ^ Z.of_nat nf + fp) in
              let sc := ex - Z.of_nat nf in
              if 0 <=? sc then Some (inject_Z (m * 10 ^ sc))
              else Some (m # Z.to_pos (10 ^ (- sc)))
          end
      end
  end.

(** [parse_volume(vol_str)]; the argument is [entry.get("volume")], [None]
    when the key is missing. *)
Definition parse_volume (vol_str : option string) : option Q :=
  match vol_str with
  | None => None
  | Some s =>
      if String.eqb s "" then None else
      let cleaned := strip (upper (remove_char ","%char s)) in
      if ends_with "B"%char cleaned then
        option_map (fun x => x * inject_Z 1000000000)%Q
          (py_float (remove_char "B"%char cleaned))
      else if ends_with "M"%char cleaned then
        option_map (fun x => x * inject_Z 1000000)%Q
          (py_float (remove_char "M"%char cleaned))
      else if ends_with "K"%char cleaned then
        option_map (fun x => x * inject_Z 1000)%Q
          (py_float (remove_char "K"%char cleaned))
      else py_float cleaned
  end.

(** The string that [parse_volume] hands to [float()]: the cleaned text
    with its B/M/K suffix letters removed. *)
Definition volume_body (s : string) : string :=
  let cleaned := strip (upper (remove_char ","%char s)) in
  if ends_with "B"%char cleaned then remove_char "B"%char cleaned
  else if ends_with "M"%char cleaned then remove_char "M"%char cleaned
  else if ends_with "K"%char cleaned then remove_char "K"%char cleaned
  else cleaned.

(** Rows with only a close price, as in the spec's scenarios. *)
Definition close_row (d : Date) (c : Z) : Row :=
  mkRow d None None None (Some (inject_Z c)) None.

Definition fresh_world (f : File) : World := mkWorld f true [].


(** ** Symbol normalization (crypto_data_manager.py) *)

(** [s.endswith(suffix)] for a whole suffix string. *)
Fixpoint is_prefix (p l : list ascii) : bool :=
  match p, l with
  | [], _ => true
  | c :: p', c' :: l' => Ascii.eqb c c' && is_prefix p' l'
  | _ :: _, [] => false
  end.

Definition ends_with_str (suffix s : string) : bool :=
  is_prefix (rev (list_ascii_of_string suffix)) (rev (list_ascii_of_string s)).

(** [symbol.upper().replace('-', '').replace('_', '').replace('/', '')]
    followed by the [USDT] suffix, as done at the top of [get_file_path],
    [fetch_from_api], [update_data] and [get_latest_price]. *)
Definition normalize_symbol (symbol : string) : string :=
  let normalized :=
    remove_char "/"%char (remove_char "_"%char (remove_char "-"%char (upper symbol))) in
  if ends_with_str "USDT" normalized then normalized
  else (normalized ++ "USDT")%string.

(** [get_file_path(symbol)]: the file name under [DATA_DIR]. *)
Definition get_file_path (symbol : string) : string :=
  (normalize_symbol symbol ++ ".parquet")%string.

(** ** Command line (crypto_data_manager.py [main]) *)

Inductive Output :=
| Usage
| IdRequired
| UnknownCommand (cmd : string)
| PrintUpdate (r : UpdateResult)
| PrintQuote (q : Quote)
| NoDataFound.

Record Exit := mkExit { exit_code : nat; output : Output }.

(** [main()] on [sys.argv] (program name first). The world is the file of
    [get_file_path(sys.argv[2])]; [fetch] is [fetch_from_api(normalized,
    limit=1000)], [None] on failure. *)
Definition main (argv : list string) (fetch : string -> option (list Row))
  : M Exit :=
  match argv with
  | [] | [_] => ret (mkExit 1 Usage)
  | _ :: command :: rest =>
      if String.eqb command "update" then
        match rest with
        | [] => ret (mkExit 1 IdRequired)
        | symbol :: _ =>
            let force := existsb (String.eqb "--force") argv in
            result <- update_data force (fetch (normalize_symbol symbol)) ;;
            ret (mkExit 0 (PrintUpdate result))
        end
      else if String.eqb command "price" then
        match rest with
        | [] => ret (mkExit 1 IdRequired)
        | _ :: _ =>
            price_data <- get_latest_price ;;
            match price_data with
            | Some q => ret (mkExit 0 (PrintQuote q))
            | None => ret (mkExit 1 NoDataFound)
            end
        end
      else ret (mkExit 1 (UnknownCommand command))
  end.

(** ** JSON responses (psx_data_manager.py, spx500_data_manager.py) *)

Set Warnings "-register-all".
Inductive json :=
| JNull
| JBool (b : bool)
| JNum (q : Q)
| JStr (s : string)
| JArr (l : list json)
| JObj (kvs : list (string * json)).

(** [d.get(k)] on the dict built by [json.loads]: the last binding of a
    repeated key wins. *)
Definition dict_get (k : string) (kvs : list (string * json)) : option json :=
  fold_left (fun acc kv => if String.eqb k (fst kv) then Some (snd kv) else acc)
    kvs None.

(** [k in d] *)
Definition has_key (k : string) (kvs : list (string * json)) : bool :=
  existsb (fun kv => String.eqb k (fst kv)) kvs.

(** Python truthiness of a decoded JSON value. *)
Definition json_truthy (j : json) : bool :=
  match j with
  | JNull => false
  | JBool b => b
  | JNum q => negb (Qeq_bool q 0)
  | JStr s => negb (String.eqb s "")
  | JArr l => negb (match l with [] => true | _ => false end)
  | JObj kvs => negb (match kvs with [] => true | _ => false end)
  end.

(** The HTTP exchange: a request or HTTP status error, or a body that
    [response.json()] decodes ([None] when it raises). *)
Inductive Response :=
| HttpFailure
| Body (j : option json).

Definition status_is_success (kvs : list (string * json)) : bool :=
  match dict_get "status" kvs with
  | Some (JStr s) => String.eqb s "success"
  | _ => false
  end.

(** [fetch_from_api(ticker)] of psx_data_manager.py after the request. *)
Definition psx_fetch_from_api (resp : Response) : option json :=
  match resp with
  | HttpFailure | Body None => None
  | Body (Some data) =>
      match data with
      | JArr l => Some (JArr l)
      | JObj kvs =>
          if has_key "data" kvs && (status_is_success kvs || has_key "data" kvs)
          then dict_get "data" kvs
          else if has_key "status" kvs && negb (status_is_success kvs) then None
          else None
      | _ => None
      end
  end.

(** The SPX500 exchange also carries the [content-type] header. *)
Inductive SpxResponse :=
| SpxHttpFailure
| SpxResp (content_type : option string) (body : option json).

(** [needle in s] for strings. *)
Definition contains (needle s : string) : bool :=
  match index 0 needle s with Some _ => true | None => false end.

(** [fetch_from_api(start_date, end_date)] of spx500_data_manager.py after
    the request. *)
Definition spx_fetch_from_api (resp : SpxResponse) : option json :=
  match resp with
  | SpxHttpFailure => None
  | SpxResp ct body =>
      let content_type := match ct with Some c => c | None => ""%string end in
      if contains "text/html" content_type then None
      else
        match body with
        | None => None
        | Some (JObj kvs) => if has_key "data" kvs then dict_get "data" kvs else None
        | Some (JArr l) => Some (JArr l)
        | Some _ => None
        end
  end.

(** ** Investing.com rows (spx500_data_manager.py) *)

(** An entry of the response list: a decoded JSON object. *)
Definition Entry := list (string * json).

(** [float(v)] on a decoded JSON value; [None] is the exception. A JSON
    integer too large for a float makes [float()] raise [OverflowError],
    which is not modelled here. *)
Definition py_float_json (v : json) : option Q :=
  match v with
  | JStr s => py_float s
  | JNum q => Some q
  | JBool b => Some (if b then 1 else 0)%Q
  | _ => None
  end.

(** [float(str(v).replace(",", "").strip())]: a number prints as itself,
    [True]/[False]/[None] and lists or dicts do not parse. *)
Definition str_float (v : json) : option Q :=
  match v with
  | JStr s => py_float (strip (remove_char ","%char s))
  | JNum q => Some q
  | _ => None
  end.

(** [entry.get(k)] when it is truthy. *)
Definition truthy_get (k : string) (e : Entry) : option json :=
  match dict_get k e with
  | Some v => if json_truthy v then Some v else None
  | None => None
  end.

(** [parse_number(field, raw_field)]: the raw value when it is truthy and
    [float()] accepts it, else the formatted one without its commas. *)
Definition parse_number (field raw_field : string) (e : Entry) : option Q :=
  match match truthy_get raw_field e with
        | Some v => py_float_json v
        | None => None
        end with
  | Some x => Some x
  | None =>
      match truthy_get field e with
      | Some v => str_float v
      | None => None
      end
  end.

(** [parse_volume(entry.get("volume"))] on a decoded JSON value: a string
    goes through [parse_volume]; a non-zero number prints as a numeral with
    no suffix; falsy values give [None] and [str()] of [True], a list or a
    dict never parses. *)
Definition parse_volume_json (v : option json) : option Q :=
  match v with
  | Some (JStr s) => parse_volume (Some s)
  | Some (JNum q) => if Qeq_bool q 0 then None else Some q
  | _ => None
  end.

(** [date_str.replace("Z", "+00:00")] *)
Definition replace_Z (s : string) : string :=
  string_of_list_ascii
    (flat_map (fun c => if Ascii.eqb c "Z"%char
                        then list_ascii_of_string "+00:00"
                        else [c])
       (list_ascii_of_string s)).

(** [entry.get("rowDateTimestamp") or entry.get("rowDate")], kept when
    truthy. *)
Definition entry_date (e : Entry) : option json :=
  match truthy_get "rowDateTimestamp" e with
  | Some v => Some v
  | None => truthy_get "rowDate" e
  end.

Section Investing.

(** [datetime.fromisoformat] and [datetime.strptime(_, "%b %d, %Y")],
    each followed by [strftime("%Y-%m-%d")] and [pd.to_datetime]; [None]
    when the parser raises. *)
Variable from_iso : string -> option Date.
Variable from_mdy : string -> option Date.

(** The [try] block on the date string. *)
Definition parse_date (date_str : string) : option Date :=
  if contains "T" date_str then from_iso (replace_Z date_str)
  else from_mdy date_str.

(** One loop iteration of [parse_investing_data]: [None] is [continue].
    A date that is not a string makes the [try] block raise. *)
Definition parse_entry (e : Entry) : option Row :=
  match entry_date e with
  | Some (JStr date_str) =>
      match parse_date date_str with
      | Some d =>
          Some (mkRow d
                  (parse_number "last_open" "last_openRaw" e)
                  (parse_number "last_max" "last_maxRaw" e)
                  (parse_number "last_min" "last_minRaw" e)
                  (parse_number "last_close" "last_closeRaw" e)
                  (parse_volume_json (dict_get "volume" e)))
      | None => None
      end
  | _ => None
  end.

(** [parse_investing_data(api_data)] *)
Definition parse_investing_data (api_data : list Entry) : Table :=
  let records :=
    flat_map (fun e => match parse_entry e with Some r => [r] | None => [] end)
      api_data in
  match records with
  | [] => []
  | _ => sort_values records
  end.

(** Iterating a truthy [api_data] and calling [entry.get]: only a list of
    objects gets through, anything else raises ([None]). *)
Fixpoint entries_of_list (l : list json) : option (list Entry) :=
  match l with
  | [] => Some []
  | JObj kvs :: l' =>
      match entries_of_list l' with Some es => Some (kvs :: es) | None => None end
  | _ :: _ => None
  end.

Definition entries_of (j : json) : option (list Entry) :=
  match j with
  | JArr l => entries_of_list l
  | _ => None
  end.

Inductive SpxOutcome :=
| SpxRaised
| SpxNoDataParsed
| SpxReturned (r : UpdateResult).

(** The start date of the request: the day after the stored maximum when
    a table is loaded, [None] (the default 1996-01-01) otherwise. The outer
    [None] is the [ValueError] of [NaT.strftime] on an empty table. *)
Definition spx_start_date (force_refresh : bool) (stored_df : option Table)
  : option (option Date) :=
  match stored_df with
  | Some s =>
      if negb force_refresh then
        match max_date s with
        | Some m => Some (Some (m + 1))
        | None => None
        end
      else Some None
  | None => Some None
  end.

(** [update_data(force_refresh)] of spx500_data_manager.py; [exchange] is
    the HTTP request for a start date and [end_date] ([today]). *)
Definition spx_update_data (today : Date) (force_refresh : bool)
    (exchange : option Date -> Date -> SpxResponse) : M SpxOutcome :=
  stored_df <- (if negb force_refresh then load_stored_data else ret None) ;;
  match spx_start_date force_refresh stored_df with
  | None => ret SpxRaised
  | Some start_date =>
      let api_data := spx_fetch_from_api (exchange start_date today) in
      let fetch_failed := SpxReturned (mkResult Error FetchFailed 0 None None) in
      match api_data with
      | None => ret fetch_failed
      | Some j =>
          if negb (json_truthy j) then ret fetch_failed else
          match entries_of j with
          | None => ret SpxRaised
          | Some es =>
              let df_new := parse_investing_data es in
              match df_new with
              | [] => ret SpxNoDataParsed
              | _ =>
                  match stored_df with
                  | None =>
                      saved <- save_data df_new ;;
                      ret (SpxReturned
                             (mkResult (if saved then Success else Error)
                                (if saved then InitialSaved else SaveFailed)
                                (length df_new) None (Some (max_date df_new))))
                  | Some s =>
                      let stored_latest_date := max_date s in
                      let new_records :=
                        filter (fun r => date_gt (date r) stored_latest_date) df_new in
                      if Nat.eqb (length new_records) 0 then
                        ret (SpxReturned
                               (mkResult Success NoNewData (length s) (Some 0%nat)
                                  (Some stored_latest_date)))
                      else
                        let df_combined :=
                          sort_values (drop_duplicates_last (s ++ new_records)) in
                        saved <- save_data df_combined ;;
                        ret (SpxReturned
                               (mkResult (if saved then Success else Error)
                                  (if saved then Added (length new_records)
                                   else SaveFailed)
                                  (length df_combined) (Some (length new_records))
                                  (Some (max_date df_combined))))
                  end
              end
          end
      end
  end.

End Investing.

(** ** Binance klines (crypto_data_manager.py [fetch_from_api]) *)

Section Klines.

(** [datetime.fromtimestamp(t).strftime('%Y-%m-%d')] followed by
    [pd.to_datetime]; [None] when it raises. *)
Variable from_timestamp : Q -> option Date.

(** [open_time_ms / 1000]: a number, or a boolean as 0 or 1; anything
    else raises [TypeError]. *)
Definition ms_to_seconds (v : json) : option Q :=
  match v with
  | JNum q => Some (q / 1000)%Q
  | JBool b => Some ((if b then 1 else 0) / 1000)%Q
  | _ => None
  end.

(** The body of the loop on one kline: indexing a list (anything else
    raises on [kline[0]] or on the division), the date and five [float()]
    calls. *)
Definition kline_row (kline : json) : option Row :=
  match kline with
  | JArr l =>
      match nth_error l 0, nth_error l 1, nth_error l 2, nth_error l 3,
            nth_error l 4, nth_error l 5 with
      | Some t, Some o, Some h, Some lo, Some c, Some v =>
          match option_map from_timestamp (ms_to_seconds t) with
          | Some (Some d) =>
              match py_float_json o, py_float_json h, py_float_json lo,
                    py_float_json c, py_float_json v with
              | Some o', Some h', Some lo', Some c', Some v' =>
                  Some (mkRow d (Some o') (Some h') (Some lo') (Some c') (Some v'))
              | _, _, _, _, _ => None
              end
          | _ => None
          end
      | _, _, _, _, _, _ => None
      end
  | _ => None
  end.

(** The loop: any exception in an iteration is caught by the outer
    [except], which returns [None]. *)
Fixpoint klines_rows (ks : list json) : option (list Row) :=
  match ks with
  | [] => Some []
  | k :: ks' =>
      match kline_row k, klines_rows ks' with
      | Some r, Some rs => Some (r :: rs)
      | _, _ => None
      end
  end.

(** [fetch_from_api(symbol)] after the request. Iterating a dict goes
    over its keys and iterating a string over its characters: a string
    kline always raises, so only an empty dict or string gives [[]]. *)
Definition crypto_fetch_from_api (resp : Response) : option (list Row) :=
  match resp with
  | HttpFailure | Body None => None
  | Body (Some klines) =>
      match klines with
      | JArr ks => klines_rows ks
      | JObj [] => Some []
      | JStr s => if String.eqb s "" then Some [] else None
      | _ => None
      end
  end.

End Klines.

(** The characters that [normalize_symbol] keeps before the suffix check:
    [upper], then the three [replace] calls, on the character list. *)
Definition strip_seps (l : list ascii) : list ascii :=
  filter (fun c' => negb (Ascii.eqb c' "/"))
    (filter (fun c' => negb (Ascii.eqb c' "_"))
       (filter (fun c' => negb (Ascii.eqb c' "-")) (map upper_char l))).

(** ** Properties of the table operations *)

Definition date_le (a b : Row) : Prop := date a <= date b.
Definition date_lt (a b : Row) : Prop := date a < date b.

(** Sorted ascending by date with no repeated date. *)
Definition strictly_sorted (t : Table) : Prop := Sorted date_lt t.

Lemma insert_by_date_perm r t : Permutation (r :: t) (insert_by_date r t).
Proof.
  induction t as [|r' t IH]; simpl; [reflexivity|].
  destruct (date r <=? date r'); [reflexivity|].
  rewrite perm_swap. now constructor.
Qed.

Lemma sort_values_perm t : Permutation t (sort_values t).
Proof.
  induction t as [|r t IH]; simpl; [constructor|].
  rewrite <- insert_by_date_perm. now constructor.
Qed.

Lemma insert_by_date_sorted r t :
  Sorted date_le t -> Sorted date_le (insert_by_date r t).
Proof.
  induction 1 as [|r' t Hs IH Hhd]; simpl.
  - repeat constructor.
  - destruct (date r <=? date r') eqn:E.
    + constructor; [now constructor|]. constructor. unfold date_le; lia.
    + apply Z.leb_gt in E. constructor; [exact IH|].
      destruct t as [|r'' t]; simpl.
      * constructor. unfold date_le; lia.
      * inversion Hhd; subst.
        destruct (date r <=? date r''); constructor; unfold date_le in *; lia.
Qed.

Lemma sort_values_sorted t : Sorted date_le (sort_values t).
Proof.
  induction t; simpl; [constructor|]. now apply insert_by_date_sorted.
Qed.

Lemma sorted_nodup_strict t :
  Sorted date_le t -> NoDup (map date t) -> strictly_sorted t.
Proof.
  unfold strictly_sorted.
  induction 1 as [|r t Hs IH Hhd]; intros Hnd; simpl in Hnd; [constructor|].
  inversion Hnd as [|? ? Hnin Hnd']; subst.
  constructor; [now apply IH|].
  destruct Hhd as [|r' t' Hle]; constructor.
  unfold date_le, date_lt in *. simpl in Hnin.
  assert (date r <> date r') by (intro E; apply Hnin; now left).
  lia.
Qed.

Lemma nodup_map_perm (l l' : Table) :
  Permutation l l' -> NoDup (map date l) -> NoDup (map date l').
Proof.
  intros P. apply Permutation_NoDup. now apply Permutation_map.
Qed.

Lemma drop_duplicates_last_incl t r : In r (drop_duplicates_last t) -> In r t.
Proof.
  induction t as [|r' t IH]; simpl; [tauto|].
  destruct existsb; simpl; intuition.
Qed.

Lemma drop_duplicates_last_nodup t : NoDup (map date (drop_duplicates_last t)).
Proof.
  induction t as [|r t IH]; simpl; [constructor|].
  destruct existsb eqn:E; [exact IH|]. simpl. constructor; [|exact IH].
  intros Hin. apply in_map_iff in Hin as [r' [Hd Hin]].
  apply drop_duplicates_last_incl in Hin.
  assert (existsb (fun r'' => date r'' =? date r) t = true) as E'.
  { apply existsb_exists. exists r'. split; [exact Hin|]. now apply Z.eqb_eq. }
  congruence.
Qed.

(** Rows whose date occurs nowhere after them survive deduplication. *)
Lemma drop_duplicates_last_app l1 l2 :
  NoDup (map date l1) ->
  (forall r, In r l1 -> ~ In (date r) (map date l2)) ->
  drop_duplicates_last (l1 ++ l2) = l1 ++ drop_duplicates_last l2.
Proof.
  induction l1 as [|r l1 IH]; intros Hnd Hdis; simpl; [reflexivity|].
  inversion Hnd as [|? ? Hnin Hnd']; subst.
  destruct existsb eqn:E.
  - exfalso. apply existsb_exists in E as [r' [Hin Heq]].
    apply Z.eqb_eq in Heq. apply in_app_or in Hin as [Hin|Hin].
    + apply Hnin. rewrite <- Heq. now apply in_map.
    + apply (Hdis r); [now left|]. rewrite <- Heq. now apply in_map.
  - f_equal. apply IH; [exact Hnd'|]. intros r' Hr'. apply Hdis. now right.
Qed.

Lemma drop_duplicates_last_id l :
  NoDup (map date l) -> drop_duplicates_last l = l.
Proof.
  intros Hnd. rewrite <- (app_nil_r l) at 1.
  rewrite drop_duplicates_last_app; [apply app_nil_r|exact Hnd|].
  intros r _ []. 
Qed.

Lemma max_date_none t : max_date t = None <-> t = [].
Proof.
  destruct t as [|r t]; simpl; [tauto|].
  split; [|discriminate]. destruct (max_date t); discriminate.
Qed.

Lemma max_date_spec t m :
  max_date t = Some m <->
  In m (map date t) /\ (forall r, In r t -> date r <= m).
Proof.
  revert m; induction t as [|r t IH]; intros m; simpl.
  - split; [discriminate|]. intros [[] _].
  - destruct (max_date t) as [m'|] eqn:E.
    + specialize (IH m'). destruct IH as [IH1 _]. specialize (IH1 eq_refl).
      destruct IH1 as [Hin Hle]. split.
      * intros H; injection H as <-. split.
        -- destruct (Z.max_spec (date r) m') as [[_ ->]|[_ ->]]; auto.
        -- intros r' [<-|Hr']; [lia|]. specialize (Hle r' Hr'). lia.
      * intros [Hm Hall]. f_equal.
        assert (date r <= m) by (apply Hall; now left).
        assert (m' <= m).
        { apply in_map_iff in Hin as [r' [<- Hr']]. apply Hall. now right. }
        destruct Hm as [<-|Hm].
        -- lia.
        -- apply in_map_iff in Hm as [r' [<- Hr']].
           specialize (Hle r' Hr'). lia.
    + apply max_date_none in E; subst. simpl. split.
      * intros H; injection H as <-. split; [now left|]. intros r' [<-|[]]. lia.
      * intros [[<-|[]] _]. reflexivity.
Qed.

Lemma max_date_perm l l' : Permutation l l' -> max_date l = max_date l'.
Proof.
  intros P. destruct (max_date l) as [m|] eqn:E.
  - symmetry. apply max_date_spec. apply max_date_spec in E as [Hin Hle].
    split.
    + eapply Permutation_in; [apply Permutation_map; exact P|exact Hin].
    + intros r Hr. apply Hle. eapply Permutation_in; [symmetry; exact P|exact Hr].
  - apply max_date_none in E; subst. apply Permutation_nil in P; now subst.
Qed.

(** Unfolding of one run of [update_data]. *)
Ltac run_update :=
  unfold update_data, bind, ret, load_stored_data, save_data, log; simpl.

Ltac split_update :=
  repeat match goal with
  | |- context [match file ?w with _ => _ end] => destruct (file w) eqn:?
  | |- context [if disk_ok ?w then _ else _] => destruct (disk_ok w) eqn:?
  | |- context [if Nat.eqb ?a ?b then _ else _] => destruct (Nat.eqb a b) eqn:?
  end; simpl in *.

(** The three ways [update_data] leaves the file: untouched, replaced by
    the sorted batch (initial save), or replaced by the merged table. *)
Lemma update_file_cases force api w :
  let w' := snd (update_data force api w) in
  file w' = file w \/
  (exists B, api = Some B /\ B <> [] /\ disk_ok w = true /\
     (force = true \/ file w = Absent \/ file w = Corrupt) /\
     file w' = Stored (sort_values B)) \/
  (exists S B, force = false /\ file w = Stored S /\ api = Some B /\
     disk_ok w = true /\
     filter (fun r => date_gt (date r) (max_date S)) (sort_values B) <> [] /\
     file w' = Stored (sort_values (drop_duplicates_last
       (S ++ filter (fun r => date_gt (date r) (max_date S)) (sort_values B))))).
Proof.
  simpl. destruct force, api as [[|r rows]|]; run_update; split_update;
    auto.
  all: try (right; left; eexists; repeat split; eauto; discriminate).
  right; right. do 2 eexists. repeat split; eauto.
  intros E. simpl in E. rewrite E in *. discriminate.
Qed.

(** ** C1: order and uniqueness of the written table *)

Lemma strict_nodup t : strictly_sorted t -> NoDup (map date t).
Proof.
  unfold strictly_sorted. intros Hs.
  apply Sorted_StronglySorted in Hs; [|intros a b c; unfold date_lt; lia].
  induction Hs as [|r t _ IH Hall]; simpl; constructor; [|exact IH].
  intros Hin. apply in_map_iff in Hin as [r' [Heq Hr']].
  rewrite Forall_forall in Hall. specialize (Hall r' Hr'). unfold date_lt in Hall. lia.
Qed.

(** C1 (corrected). Every table that [update_data] writes is sorted
    ascending by date. On the initial-save path (no stored table, a
    corrupt one, or [force_refresh]) the result is a failed fetch with the
    file unchanged, a failed save, or the incoming batch [B] written
    sorted, which is strictly ascending exactly when [B] has no repeated
    date. On the merge path (a stored table [S] loaded, no
    [force_refresh]) the result is a failed fetch or "no new data" with the
    file unchanged, a failed save, or an "added" result whose written table
    is strictly ascending with unique dates. *)
Theorem update_written_table_sorted force api w :
  let r := fst (update_data force api w) in
  let w' := snd (update_data force api w) in
  ((force = true \/ file w = Absent \/ file w = Corrupt) ->
   (message r = FetchFailed /\ file w' = file w) \/
   message r = SaveFailed \/
   (exists B, api = Some B /\ message r = InitialSaved /\
      file w' = Stored (sort_values B) /\ Sorted date_le (sort_values B) /\
      (strictly_sorted (sort_values B) <-> NoDup (map date B)))) /\
  (forall S, force = false -> file w = Stored S ->
   ((message r = FetchFailed \/ message r = NoNewData) /\ file w' = file w) \/
   message r = SaveFailed \/
   (exists T n, message r = Added n /\ file w' = Stored T /\ strictly_sorted T)).
Proof.
  simpl.
  assert (Hinit : forall B, Sorted date_le (sort_values B) /\
            (strictly_sorted (sort_values B) <-> NoDup (map date B))).
  { intros B. split; [apply sort_values_sorted|]. split; intros H.
    - eapply nodup_map_perm; [symmetry; apply sort_values_perm|].
      exact (strict_nodup _ H).
    - apply sorted_nodup_strict; [apply sort_values_sorted|].
      eapply nodup_map_perm; [apply sort_values_perm|exact H]. }
  assert (Hmerge : forall l, strictly_sorted (sort_values (drop_duplicates_last l))).
  { intros l. apply sorted_nodup_strict; [apply sort_values_sorted|].
    eapply nodup_map_perm; [apply sort_values_perm|].
    apply drop_duplicates_last_nodup. }
  split.
  - intros Hpath.
    destruct api as [[|r0 rows]|];
      [left; destruct force; run_update; [split; reflexivity|];
       destruct (file w) eqn:F; simpl; rewrite ?F; split; reflexivity| |
       left; destruct force; run_update; [split; reflexivity|];
       destruct (file w) eqn:F; simpl; rewrite ?F; split; reflexivity].
    destruct force; run_update; split_update;
      try (destruct Hpath as [H|[H|H]]; discriminate).
    all: try (right; left; reflexivity).
    all: right; right; exists (r0 :: rows);
      do 3 (split; [reflexivity|]); exact (Hinit (r0 :: rows)).
  - intros S Hf HS. subst force.
    destruct api as [[|r0 rows]|]; run_update; rewrite HS; simpl;
      [left; split; [left; reflexivity|congruence]| |
       left; split; [left; reflexivity|congruence]].
    split_update.
    + left. split; [right; reflexivity|congruence].
    + right; right. do 2 eexists. split; [reflexivity|]. split; [reflexivity|].
      apply Hmerge.
    + right; left. reflexivity.
Qed.

(** C1 counterexample: a first save of a batch with a repeated date writes
    a table with two rows of that date. *)
Lemma initial_save_keeps_duplicate_dates :
  exists T,
    update_data false (Some [close_row 1 100; close_row 1 105])
      (fresh_world Absent)
    = (mkResult Success InitialSaved 2 None (Some (Some 1)),
       fresh_world (Stored T)) /\
    ~ NoDup (map date T) /\ ~ strictly_sorted T.
Proof.
  eexists. split; [vm_compute; reflexivity|]. split.
  - simpl. intros H. inversion H as [|? ? Hn]; subst. apply Hn. now left.
  - unfold strictly_sorted. intros H. inversion H as [|? ? _ Hhd]; subst.
    inversion Hhd; subst. unfold date_lt in *. simpl in *. lia.
Qed.

(** ** C2: the D1..D5 / D4..D8 merge scenario *)

(** C2 counterexample: the row of D4 that ends up stored is the stored
    one, not the incoming one. *)
Lemma merge_scenario_keeps_stored_d4 :
  let stored := map (fun d => close_row d (10 * d)) [1; 2; 3; 4; 5] in
  let incoming := map (fun d => close_row d (100 + d)) [4; 5; 6; 7; 8] in
  exists T,
    snd (update_data false (Some incoming) (fresh_world (Stored stored)))
      = fresh_world (Stored T) /\
    List.length T = 8%nat /\
    In (close_row 4 40) T /\ ~ In (close_row 4 104) T.
Proof.
  simpl. eexists. split; [vm_compute; reflexivity|].
  split; [reflexivity|]. split; [simpl; tauto|].
  simpl. intros H. repeat destruct H as [H|H]; try discriminate H; try exact H.
  all: injection H; intros; lia.
Qed.

(** C2 (corrected). Stored rows dated D1..D5 and an incoming batch dated
    D4..D8 give a table with exactly the dates D1..D8 and 8 rows; the rows
    of D1..D5 (D4 included) are the stored ones, only D6..D8 come from the
    batch, and three new records are reported. *)
Theorem merge_scenario_d1_d8 (fs fi : Date -> Row) (l : list Diag) :
  (forall d, date (fs d) = d) ->
  (forall d, date (fi d) = d) ->
  update_data false (Some (map fi [4; 5; 6; 7; 8]))
    (mkWorld (Stored (map fs [1; 2; 3; 4; 5])) true l)
  = (mkResult Success (Added 3) 8 (Some 3%nat) (Some (Some 8)),
     mkWorld (Stored (map fs [1; 2; 3; 4; 5] ++ map fi [6; 7; 8])) true l).
Proof.
  intros Hs Hi. run_update.
  repeat (progress (rewrite ?Hs, ?Hi; cbn)).
  reflexivity.
Qed.

Lemma merge_scenario_d1_d8_witness :
  update_data false
    (Some (map (fun d => close_row d (100 + d)) [4; 5; 6; 7; 8]))
    (mkWorld (Stored (map (fun d => close_row d (10 * d)) [1; 2; 3; 4; 5])) true [])
  = (mkResult Success (Added 3) 8 (Some 3%nat) (Some (Some 8)),
     mkWorld (Stored (map (fun d => close_row d (10 * d)) [1; 2; 3; 4; 5]
                      ++ map (fun d => close_row d (100 + d)) [6; 7; 8])) true []).
Proof.
  apply (merge_scenario_d1_d8 (fun d => close_row d (10 * d))
           (fun d => close_row d (100 + d))); reflexivity.
Defined.

(** ** C3: the strictly-newer partition *)

(** C3 counterexample: an empty incoming batch is reported as a failed
    fetch, not as "no new data". *)
Lemma empty_batch_is_fetch_error :
  update_data false (Some []) (fresh_world (Stored [close_row 1 100]))
  = (mkResult Error FetchFailed 0 None None,
     fresh_world (Stored [close_row 1 100])).
Proof. reflexivity. Qed.

(** C3 (corrected). With a stored table [S], a non-forced update with an
    empty incoming batch reports a failed fetch (status error, no record)
    and changes nothing. With a non-empty batch [B] it keeps only the rows
    of [B] dated strictly after [max(date)] of [S]. If there are none,
    nothing is written and the result is "no new data" with [len(S)], zero
    new records and the stored latest date. Otherwise the written table is
    the deduplicated, sorted concatenation of [S] and those rows, and their
    number is reported. *)
Theorem update_partition_newer S B w :
  file w = Stored S ->
  (B = [] ->
   update_data false (Some B) w = (mkResult Error FetchFailed 0 None None, w)) /\
  let new_records :=
    filter (fun r => date_gt (date r) (max_date S)) (sort_values B) in
  (B <> [] -> new_records = [] ->
   update_data false (Some B) w
   = (mkResult Success NoNewData (List.length S) (Some 0%nat)
        (Some (max_date S)), w)) /\
  (B <> [] -> new_records <> [] ->
   new_records_count (fst (update_data false (Some B) w))
     = Some (List.length new_records) /\
   (disk_ok w = true ->
    file (snd (update_data false (Some B) w))
    = Stored (sort_values (drop_duplicates_last (S ++ new_records))))).
Proof.
  intros HS. split.
  - intros ->. run_update. rewrite HS. reflexivity.
  - simpl. destruct B as [|r B]; [split; intros HB; congruence|]. simpl.
    split.
    + intros _ Hn. run_update. rewrite HS, Hn. reflexivity.
    + intros _ Hn. destruct (filter _ _) as [|r' l'] eqn:E; [congruence|].
      run_update. rewrite HS, E. simpl.
      destruct (disk_ok w); simpl; split; try reflexivity; discriminate.
Qed.

Lemma update_partition_newer_witness :
  let S := [close_row 1 100] in
  let B := [close_row 1 105; close_row 2 110] in
  file (fresh_world (Stored S)) = Stored S /\
  new_records_count (fst (update_data false (Some B) (fresh_world (Stored S))))
    = Some 1%nat.
Proof.
  simpl. split; [reflexivity|].
  destruct (update_partition_newer [close_row 1 100]
              [close_row 1 105; close_row 2 110] (fresh_world (Stored [close_row 1 100]))
              eq_refl) as [_ [_ H]].
  apply H; vm_compute; discriminate.
Defined.

(** ** C4: a second run with the same batch *)

Lemma drop_duplicates_last_dates l d :
  In d (map date l) -> In d (map date (drop_duplicates_last l)).
Proof.
  induction l as [|r l IH]; simpl; [tauto|].
  destruct existsb eqn:E; intros [<-|Hin]; auto.
  - apply existsb_exists in E as [r' [Hr' Heq]]. apply Z.eqb_eq in Heq.
    apply IH. rewrite <- Heq. now apply in_map.
  - now left.
  - right. auto.
Qed.

Lemma date_gt_false_of_in T d d' :
  In d (map date T) -> d' <= d -> date_gt d' (max_date T) = false.
Proof.
  intros Hin Hle. destruct (max_date T) as [m|] eqn:E; [|reflexivity].
  apply max_date_spec in E as [_ Hall]. apply in_map_iff in Hin as [r [<- Hr]].
  specialize (Hall r Hr). simpl. apply Z.ltb_ge. lia.
Qed.

Lemma in_sort_values r t : In r t -> In r (sort_values t).
Proof. intros H. eapply Permutation_in; [apply sort_values_perm|exact H]. Qed.

Lemma in_sort_values_dates d t :
  In d (map date t) -> In d (map date (sort_values t)).
Proof.
  intros H. eapply Permutation_in; [apply Permutation_map, sort_values_perm|exact H].
Qed.

(** After a successful update with [B], the file holds a table whose
    latest date is not before any date of [B]. *)
Lemma success_covers_batch force B w :
  status (fst (update_data force (Some B) w)) = Success ->
  exists T, file (snd (update_data force (Some B) w)) = Stored T /\
    forall r, In r B -> date_gt (date r) (max_date T) = false.
Proof.
  destruct force, B as [|r0 B]; run_update; split_update;
    try discriminate; intros _.
  (* initial save *)
  all: try (exists (sort_values (r0 :: B)); split; [reflexivity|];
            intros r Hr; apply (date_gt_false_of_in _ (date r));
            [apply in_map, (in_sort_values r (r0 :: B)), Hr|lia]).
  (* no new data *)
  - exists t. split; [exact Heqf|].
    intros r Hr. apply Nat.eqb_eq, length_zero_iff_nil in Heqb.
    destruct (date_gt (date r) (max_date t)) eqn:E; [|reflexivity].
    assert (In r (filter (fun r1 => date_gt (date r1) (max_date t))
                    (insert_by_date r0 (sort_values B)))) as Hf.
    { apply filter_In. split; [|exact E].
      apply (in_sort_values r (r0 :: B)), Hr. }
    rewrite Heqb in Hf. destruct Hf.
  (* merge *)
  - eexists; split; [reflexivity|].
    intros r Hr. set (f := fun r1 => date_gt (date r1) (max_date t)) in *.
    destruct (f r) eqn:E.
    + apply (date_gt_false_of_in _ (date r) _); [|lia].
      apply in_sort_values_dates, drop_duplicates_last_dates.
      rewrite map_app. apply in_or_app. right.
      apply in_map, filter_In. split; [|exact E].
      apply (in_sort_values r (r0 :: B)), Hr.
    + unfold f in E at 1. destruct (max_date t) as [m|] eqn:Em.
      * apply (date_gt_false_of_in _ m _).
        -- apply in_sort_values_dates, drop_duplicates_last_dates.
           rewrite map_app. apply in_or_app. left.
           apply max_date_spec in Em as [Hm _]. exact Hm.
        -- simpl in E. apply Z.ltb_ge in E. exact E.
      * exfalso. revert Heqb. generalize (insert_by_date r0 (sort_values B)).
        intros l. replace (filter f l) with (@nil Row); [discriminate|].
        induction l as [|x l IH]; simpl; [reflexivity|].
        unfold f at 1. try rewrite Em. simpl. exact IH.
Qed.

Lemma filter_all_false {A} (f : A -> bool) l :
  (forall x, In x l -> f x = false) -> filter f l = [].
Proof.
  intros H. rewrite (filter_ext_in f (fun _ => false)); [apply filter_false|].
  exact H.
Qed.

(** C4 (confirmed). Whatever run left the file after a successful update
    with the batch [B] (initial save, forced refresh, merge or "no new
    data"), running [update_data] again with [B] and no forcing reports no
    new data, zero new records and the stored row count, and changes
    nothing. *)
Theorem update_idempotent force B w :
  status (fst (update_data force (Some B) w)) = Success ->
  let w1 := snd (update_data force (Some B) w) in
  exists T, file w1 = Stored T /\
    update_data false (Some B) w1
    = (mkResult Success NoNewData (List.length T) (Some 0%nat)
         (Some (max_date T)), w1).
Proof.
  intros Hs. simpl.
  destruct (success_covers_batch force B w Hs) as [T [HT Hcov]].
  exists T. split; [exact HT|].
  destruct B as [|r0 B].
  { exfalso. revert Hs. destruct force; run_update;
      destruct (file w); discriminate. }
  remember (snd (update_data force (Some (r0 :: B)) w)) as w1.
  run_update. rewrite HT.
  rewrite filter_all_false; [reflexivity|].
  intros x Hx. apply Hcov.
  eapply Permutation_in; [symmetry; apply (sort_values_perm (r0 :: B))|exact Hx].
Qed.

Lemma update_idempotent_witness :
  let w := fresh_world (Stored [close_row 1 100]) in
  let B := [close_row 1 105; close_row 2 110] in
  status (fst (update_data false (Some B) w)) = Success /\
  exists T, file (snd (update_data false (Some B) w)) = Stored T /\
    update_data false (Some B) (snd (update_data false (Some B) w))
    = (mkResult Success NoNewData (List.length T) (Some 0%nat)
         (Some (max_date T)), snd (update_data false (Some B) w)).
Proof.
  simpl. split; [vm_compute; reflexivity|].
  apply (update_idempotent false [close_row 1 105; close_row 2 110]
           (fresh_world (Stored [close_row 1 100]))).
  vm_compute. reflexivity.
Defined.

(** ** C5: forced refresh *)

(** C5 (confirmed). With [force_refresh] and a non-empty batch [B], the
    stored file is never read: [to_parquet] receives [B] sorted by date,
    whatever the file held before (if the write fails the file is left
    as it was). *)
Theorem update_force_refresh B w :
  B <> [] ->
  snd (update_data true (Some B) w)
  = if disk_ok w then mkWorld (Stored (sort_values B)) true (stderr w)
    else log SaveError w.
Proof.
  intros HB. destruct B as [|r B]; [congruence|].
  run_update. destruct (disk_ok w) eqn:D; simpl; rewrite ?D; reflexivity.
Qed.

Lemma update_force_refresh_witness :
  snd (update_data true (Some [close_row 2 7; close_row 1 5])
         (fresh_world (Stored [close_row 1 100; close_row 3 9])))
  = fresh_world (Stored [close_row 1 5; close_row 2 7]).
Proof.
  rewrite (update_force_refresh [close_row 2 7; close_row 1 5]); [|discriminate].
  reflexivity.
Defined.

(** ** C7: unreadable file *)

(** C7 (confirmed). A file that exists but cannot be parsed makes
    [load_stored_data] print an error and return [None]; [update_data]
    then takes the initial-save path: with a fetched batch [B] and a
    working disk it reports success ("initial data saved") and [B] sorted
    replaces the unreadable file. *)
Theorem corrupt_file_replaced B w :
  file w = Corrupt -> B <> [] -> disk_ok w = true ->
  load_stored_data w = (None, log LoadError w) /\
  update_data false (Some B) w
  = (mkResult Success InitialSaved (List.length (sort_values B)) None
       (Some (max_date (sort_values B))),
     mkWorld (Stored (sort_values B)) true (stderr w ++ [LoadError])).
Proof.
  intros HC HB HD. destruct B as [|r B]; [congruence|].
  unfold load_stored_data. rewrite HC. split; [reflexivity|].
  run_update. rewrite HC. simpl. rewrite HD. reflexivity.
Qed.

Lemma corrupt_file_replaced_witness :
  let w := mkWorld Corrupt true [] in
  file w = Corrupt /\ [close_row 1 100] <> [] /\ disk_ok w = true /\
  snd (update_data false (Some [close_row 1 100]) w)
  = mkWorld (Stored [close_row 1 100]) true [LoadError].
Proof.
  cbv zeta. split; [reflexivity|]. split; [discriminate|]. split; [reflexivity|].
  destruct (corrupt_file_replaced [close_row 1 100] (mkWorld Corrupt true [])
              eq_refl ltac:(discriminate) eq_refl) as [_ ->].
  reflexivity.
Defined.

(** ** C6: latest quote *)

Lemma last_default {A} (l : list A) d d' : l <> [] -> last l d = last l d'.
Proof.
  induction l as [|x l IH]; intros H; [congruence|].
  destruct l as [|y l]; [reflexivity|]. apply IH. discriminate.
Qed.

Lemma last_in {A} (x : A) l : In (last (x :: l) x) (x :: l).
Proof.
  revert x; induction l as [|y l IH]; intros x; [now left|].
  change (last (x :: y :: l) x) with (last (y :: l) x).
  rewrite (last_default (y :: l) x y) by discriminate. right. apply IH.
Qed.

Lemma sorted_last_is_max r t :
  Sorted date_le (r :: t) -> max_date (r :: t) = Some (date (last (r :: t) r)).
Proof.
  revert r; induction t as [|r' t IH]; intros r Hs; [reflexivity|].
  inversion Hs as [|? ? Hs' Hhd]; subst. inversion Hhd as [|? ? Hle]; subst.
  unfold date_le in Hle.
  change (last (r :: r' :: t) r) with (last (r' :: t) r).
  rewrite (last_default (r' :: t) r r') by discriminate.
  specialize (IH r' Hs'). pose proof IH as IH'.
  apply max_date_spec in IH' as [_ Hall].
  assert (date r' <= date (last (r' :: t) r')) by (apply Hall; now left).
  cbn [max_date]. cbn [max_date] in IH. rewrite IH. f_equal. lia.
Qed.

(** C6 (confirmed). [get_latest_price] gives [None] when the file is
    absent, unreadable or holds an empty table. For a non-empty table,
    sorted ascending by date as every written table is, it gives the flat
    quote of a row of the table whose date is the table's maximum date;
    each numeric cell is passed through as is, a missing one being
    [null]. *)
Theorem get_latest_price_spec w :
  ((forall t, file w = Stored t -> t = []) -> fst (get_latest_price w) = None) /\
  (forall t, file w = Stored t -> t <> [] -> Sorted date_le t ->
     exists r, In r t /\ max_date t = Some (date r) /\
       fst (get_latest_price w)
       = Some (mkQuote (Some (date r)) (close r) (open r) (high r) (low r)
                 (volume r))).
Proof.
  unfold get_latest_price, bind, load_stored_data, ret, log. split.
  - intros H. destruct (file w) as [| |t]; simpl; try reflexivity.
    rewrite (H t eq_refl). reflexivity.
  - intros t Ht Hne Hs. rewrite Ht. destruct t as [|r t]; [congruence|].
    exists (last (r :: t) r). split; [|split].
    + apply last_in.
    + now apply sorted_last_is_max.
    + reflexivity.
Qed.

(** ** C9 and C10: the merge path *)

Lemma newer_dates_disjoint S l :
  forall r, In r S ->
  ~ In (date r) (map date (filter (fun x => date_gt (date x) (max_date S)) l)).
Proof.
  intros r Hr Hin. apply in_map_iff in Hin as [x [Hx Hin]].
  apply filter_In in Hin as [_ Hgt].
  destruct (max_date S) as [m|] eqn:E; [|discriminate].
  apply max_date_spec in E as [_ Hall]. specialize (Hall r Hr).
  simpl in Hgt. apply Z.ltb_lt in Hgt. lia.
Qed.

Lemma merge_dedup_app S l :
  NoDup (map date S) ->
  drop_duplicates_last (S ++ filter (fun x => date_gt (date x) (max_date S)) l)
  = S ++ drop_duplicates_last (filter (fun x => date_gt (date x) (max_date S)) l).
Proof.
  intros Hnd. apply drop_duplicates_last_app; [exact Hnd|].
  apply newer_dates_disjoint.
Qed.

(** C9 (confirmed). If the stored table has no repeated date, a
    non-forced update leaves a table that contains every stored row
    unchanged; every other row of it is a row of the incoming batch dated
    strictly after the stored maximum. *)
Theorem update_preserves_stored_rows S api w :
  file w = Stored S -> NoDup (map date S) ->
  exists T, file (snd (update_data false api w)) = Stored T /\
    (forall r, In r S -> In r T) /\
    (forall r, In r T -> In r S \/
       (date_gt (date r) (max_date S) = true /\
        exists B, api = Some B /\ In r B)).
Proof.
  intros HS Hnd.
  destruct (update_file_cases false api w)
    as [H|[[B [_ [_ [_ [Hf H]]]]]|[S' [B [_ [HS' [-> [_ [_ H]]]]]]]]];
    simpl in H.
  - exists S. rewrite H, HS. split; [reflexivity|]. split; auto.
  - exfalso. rewrite HS in Hf. destruct Hf as [Hf|[Hf|Hf]]; discriminate.
  - rewrite HS in HS'. injection HS' as <-.
    rewrite merge_dedup_app in H by exact Hnd.
    eexists. split; [exact H|]. split.
    + intros r Hr. apply in_sort_values, in_or_app. now left.
    + intros r Hr.
      eapply Permutation_in in Hr; [|symmetry; apply sort_values_perm].
      apply in_app_or in Hr as [Hr|Hr]; [now left|right].
      apply drop_duplicates_last_incl, filter_In in Hr as [Hr Hgt].
      split; [exact Hgt|]. exists B. split; [reflexivity|].
      eapply Permutation_in; [symmetry; apply sort_values_perm|exact Hr].
Qed.

Lemma update_preserves_stored_rows_witness :
  exists T,
    file (snd (update_data false (Some [close_row 1 105; close_row 2 110])
                 (fresh_world (Stored [close_row 1 100])))) = Stored T /\
    In (close_row 1 100) T.
Proof.
  destruct (update_preserves_stored_rows [close_row 1 100]
              (Some [close_row 1 105; close_row 2 110])
              (fresh_world (Stored [close_row 1 100])) eq_refl)
    as [T [HT [Hkeep _]]].
  - repeat constructor. simpl. tauto.
  - exists T. split; [exact HT|]. apply Hkeep. now left.
Defined.

(** C10 counterexample: two incoming rows of the same new date are both
    counted as new records, but deduplication keeps only the later one. *)
Lemma duplicate_new_dates_shrink_count :
  let res := fst (update_data false
                    (Some [close_row 2 110; close_row 2 111])
                    (fresh_world (Stored [close_row 1 100]))) in
  new_records_count res = Some 2%nat /\ records_count res = 2%nat /\
  records_count res <> (1 + 2)%nat.
Proof. vm_compute. split; [reflexivity|]. split; [reflexivity|]. discriminate. Qed.

Lemma nodup_dates_filter (f : Row -> bool) l :
  NoDup (map date l) -> NoDup (map date (filter f l)).
Proof.
  induction l as [|x l IH]; simpl; intros Hnd; [constructor|].
  inversion Hnd as [|? ? Hn Hnd']; subst.
  destruct (f x); simpl; [|now apply IH].
  constructor; [|now apply IH].
  intros Hin. apply Hn. apply in_map_iff in Hin as [y [Hy Hin]].
  apply filter_In in Hin as [Hin _]. rewrite <- Hy. now apply in_map.
Qed.

Lemma merge_max_date S B :
  let new_records :=
    filter (fun r => date_gt (date r) (max_date S)) (sort_values B) in
  new_records <> [] ->
  max_date (S ++ drop_duplicates_last new_records) = max_date B.
Proof.
  intros new_records Hne.
  assert (HinB : forall r, In r new_records -> In r B /\
            exists m, max_date S = Some m /\ m < date r).
  { intros r Hr. apply filter_In in Hr as [Hr Hgt]. split.
    - eapply Permutation_in; [symmetry; apply sort_values_perm|exact Hr].
    - destruct (max_date S) as [m|]; [|discriminate].
      exists m. split; [reflexivity|]. now apply Z.ltb_lt. }
  destruct new_records as [|x l] eqn:En; [congruence|].
  destruct (HinB x (or_introl eq_refl)) as [HxB [m [Hm Hmx]]].
  destruct (max_date B) as [mB|] eqn:EB.
  2: { apply max_date_none in EB. subst B. destruct HxB. }
  apply max_date_spec in EB as [HmB HallB]. apply max_date_spec. split.
  - rewrite map_app. apply in_or_app. right.
    apply drop_duplicates_last_dates. rewrite <- En.
    apply in_map_iff in HmB as [rB [HrB HinB']].
    rewrite <- HrB. apply in_map. unfold new_records. apply filter_In. split.
    + apply in_sort_values, HinB'.
    + rewrite Hm. apply Z.ltb_lt. specialize (HallB x HxB). lia.
  - intros r Hr. apply in_app_or in Hr as [Hr|Hr].
    + apply max_date_spec in Hm as [_ HallS]. specialize (HallS r Hr).
      specialize (HallB x HxB). lia.
    + apply drop_duplicates_last_incl in Hr.
      apply HallB, (HinB r Hr).
Qed.

(** C10 (corrected). If the stored table has no repeated date and a
    non-forced update takes the merge path (some incoming row is dated
    after the stored maximum), the reported [latest_date] is the maximum
    date of the incoming batch, [new_records_count] is the number of those
    newer rows, and [records_count] is the stored row count plus the number
    of distinct dates among them. It equals the stored count plus
    [new_records_count] when the batch has no repeated date. *)
Theorem merge_counts S B w :
  file w = Stored S -> NoDup (map date S) ->
  let new_records :=
    filter (fun r => date_gt (date r) (max_date S)) (sort_values B) in
  new_records <> [] ->
  let res := fst (update_data false (Some B) w) in
  new_records_count res = Some (List.length new_records) /\
  records_count res
    = (List.length S + List.length (drop_duplicates_last new_records))%nat /\
  (NoDup (map date B) ->
   records_count res = (List.length S + List.length new_records)%nat) /\
  latest_date res = Some (max_date B).
Proof.
  intros HS Hnd new_records Hne. cbv zeta.
  assert (Hcnt : records_count (fst (update_data false (Some B) w))
                 = (List.length S + List.length (drop_duplicates_last new_records))%nat /\
                 new_records_count (fst (update_data false (Some B) w))
                 = Some (List.length new_records) /\
                 latest_date (fst (update_data false (Some B) w))
                 = Some (max_date (S ++ drop_duplicates_last new_records))).
  { destruct B as [|r0 B]; [exfalso; apply Hne; reflexivity|].
    unfold new_records in *.
    assert (Hz : Nat.eqb (List.length (filter (fun r => date_gt (date r) (max_date S))
                                         (sort_values (r0 :: B)))) 0 = false)
      by (destruct (filter _ _); [congruence|reflexivity]).
    run_update. rewrite HS. simpl. simpl in Hz. rewrite Hz.
    rewrite merge_dedup_app by exact Hnd.
    rewrite <- (Permutation_length (sort_values_perm _)).
    rewrite <- (max_date_perm _ _ (sort_values_perm _)).
    rewrite length_app.
    destruct (disk_ok w); simpl; auto. }
  destruct Hcnt as [Hc [Hn Hl]].
  split; [exact Hn|]. split; [exact Hc|]. split.
  - intros HB. rewrite Hc. f_equal. f_equal. apply drop_duplicates_last_id.
    apply nodup_dates_filter. eapply nodup_map_perm; [apply sort_values_perm|exact HB].
  - rewrite Hl. f_equal. now apply merge_max_date.
Qed.

Lemma merge_counts_witness :
  let w := fresh_world (Stored [close_row 1 100]) in
  let B := [close_row 2 110; close_row 2 111; close_row 3 120] in
  records_count (fst (update_data false (Some B) w)) = 3%nat /\
  latest_date (fst (update_data false (Some B) w)) = Some (Some 3).
Proof.
  cbv zeta.
  destruct (merge_counts [close_row 1 100]
              [close_row 2 110; close_row 2 111; close_row 3 120]
              (fresh_world (Stored [close_row 1 100])) eq_refl)
    as [_ [Hc [_ Hl]]].
  - repeat constructor. simpl. tauto.
  - vm_compute. discriminate.
  - split; [etransitivity; [exact Hc|vm_compute; reflexivity]
            |etransitivity; [exact Hl|vm_compute; reflexivity]].
Defined.

(** ** C8: volume suffixes *)

(** C8 (confirmed). ["2.5B"], ["140M"] and ["3K"] parse to 2.5e9, 1.4e8
    and 3e3; a string without suffix is parsed by [float()] as it is
    (after removing thousands separators and surrounding blanks); a missing
    or empty value gives [None], and any other value gives [None] exactly
    when [float()] rejects it, never an exception. *)
Theorem parse_volume_spec :
  (exists q, parse_volume (Some "2.5B"%string) = Some q /\ (q == inject_Z 2500000000)%Q) /\
  (exists q, parse_volume (Some "140M"%string) = Some q /\ (q == inject_Z 140000000)%Q) /\
  (exists q, parse_volume (Some "3K"%string) = Some q /\ (q == inject_Z 3000)%Q) /\
  (forall s, s <> ""%string ->
     let cleaned := strip (upper (remove_char ","%char s)) in
     ends_with "B"%char cleaned = false -> ends_with "M"%char cleaned = false ->
     ends_with "K"%char cleaned = false ->
     parse_volume (Some s) = py_float cleaned) /\
  parse_volume None = None /\ parse_volume (Some ""%string) = None /\
  (forall s, parse_volume (Some s) = None <->
             s = ""%string \/ py_float (volume_body s) = None).
Proof.
  split; [eexists; split; [vm_compute; reflexivity|reflexivity]|].
  split; [eexists; split; [vm_compute; reflexivity|reflexivity]|].
  split; [eexists; split; [vm_compute; reflexivity|reflexivity]|].
  split.
  { intros s Hs cleaned HB HM HK. unfold parse_volume.
    apply String.eqb_neq in Hs. rewrite Hs. fold cleaned. now rewrite HB, HM, HK. }
  split; [reflexivity|]. split; [reflexivity|].
  intros s. unfold parse_volume, volume_body.
  destruct (String.eqb s "") eqn:E.
  - apply String.eqb_eq in E. split; [now left|reflexivity].
  - apply String.eqb_neq in E.
    set (c := strip (upper (remove_char ","%char s))).
    destruct (ends_with "B"%char c); [|destruct (ends_with "M"%char c);
      [|destruct (ends_with "K"%char c)]];
    try (destruct (py_float _); simpl; split;
         [discriminate|intros [H|H]; [contradiction|discriminate]
         |intros _; right; reflexivity|reflexivity]).
Qed.

(** ** Symbol normalization *)

Lemma list_ascii_of_string_app a b :
  list_ascii_of_string (a ++ b) = list_ascii_of_string a ++ list_ascii_of_string b.
Proof. induction a as [|c a IH]; simpl; [reflexivity|]. now rewrite IH. Qed.

Lemma upper_char_idem c : upper_char (upper_char c) = upper_char c.
Proof. destruct c as [[] [] [] [] [] [] [] []]; reflexivity. Qed.

Lemma upper_char_sep c :
  (Ascii.eqb (upper_char c) "-" || Ascii.eqb (upper_char c) "_"
   || Ascii.eqb (upper_char c) "/")%bool
  = (Ascii.eqb c "-" || Ascii.eqb c "_" || Ascii.eqb c "/")%bool.
Proof. destruct c as [[] [] [] [] [] [] [] []]; reflexivity. Qed.

Lemma upper_char_not_lower c :
  negb (((97 <=? nat_of_ascii (upper_char c)) && (nat_of_ascii (upper_char c) <=? 122))%nat)
  = true.
Proof. destruct c as [[] [] [] [] [] [] [] []]; reflexivity. Qed.


Lemma strip_seps_cons c l :
  strip_seps (c :: l)
  = if (Ascii.eqb (upper_char c) "-" || Ascii.eqb (upper_char c) "_"
        || Ascii.eqb (upper_char c) "/")%bool
    then strip_seps l else upper_char c :: strip_seps l.
Proof.
  unfold strip_seps. simpl. destruct (Ascii.eqb (upper_char c) "-"); simpl; [reflexivity|].
  destruct (Ascii.eqb (upper_char c) "_"); simpl; [reflexivity|].
  destruct (Ascii.eqb (upper_char c) "/"); reflexivity.
Qed.

Lemma strip_seps_idem l : strip_seps (strip_seps l) = strip_seps l.
Proof.
  induction l as [|c l IH]; [reflexivity|].
  rewrite strip_seps_cons.
  destruct (_ || _ || _)%bool eqn:E; [exact IH|].
  rewrite strip_seps_cons, upper_char_idem, E. now rewrite IH.
Qed.

Lemma strip_seps_app a b : strip_seps (a ++ b) = strip_seps a ++ strip_seps b.
Proof. unfold strip_seps. now rewrite map_app, !filter_app. Qed.

Lemma normalize_symbol_chars s :
  list_ascii_of_string (normalize_symbol s)
  = if is_prefix (rev (list_ascii_of_string "USDT"))
         (rev (strip_seps (list_ascii_of_string s)))
    then strip_seps (list_ascii_of_string s)
    else strip_seps (list_ascii_of_string s) ++ list_ascii_of_string "USDT".
Proof.
  unfold normalize_symbol, ends_with_str, remove_char, upper, strip_seps.
  rewrite !list_ascii_of_string_of_list_ascii.
  destruct is_prefix.
  - now rewrite list_ascii_of_string_of_list_ascii.
  - now rewrite list_ascii_of_string_app, list_ascii_of_string_of_list_ascii.
Qed.

Lemma ends_usdt l :
  is_prefix (rev (list_ascii_of_string "USDT")) (rev (l ++ list_ascii_of_string "USDT"))
  = true.
Proof. rewrite rev_app_distr. reflexivity. Qed.

(** Normalizing the already normalized symbol changes nothing, the result
    always ends in [USDT], and [get_file_path] gives the same file for a
    symbol and for its normalized form. *)
Theorem normalize_symbol_idempotent s :
  normalize_symbol (normalize_symbol s) = normalize_symbol s /\
  ends_with_str "USDT" (normalize_symbol s) = true /\
  get_file_path (normalize_symbol s) = get_file_path s.
Proof.
  assert (Hidem : normalize_symbol (normalize_symbol s) = normalize_symbol s).
  { rewrite <- (string_of_list_ascii_of_string (normalize_symbol (normalize_symbol s))).
    rewrite <- (string_of_list_ascii_of_string (normalize_symbol s)) at 2.
    f_equal. rewrite (normalize_symbol_chars (normalize_symbol s)),
      (normalize_symbol_chars s).
    destruct (is_prefix _ (rev (strip_seps (list_ascii_of_string s)))) eqn:E.
    - rewrite strip_seps_idem, E. reflexivity.
    - rewrite strip_seps_app, strip_seps_idem.
      change (strip_seps (list_ascii_of_string "USDT")) with
        (list_ascii_of_string "USDT").
      rewrite ends_usdt. reflexivity. }
  split; [exact Hidem|]. split.
  - unfold ends_with_str. rewrite normalize_symbol_chars.
    destruct (is_prefix _ (rev (strip_seps (list_ascii_of_string s)))) eqn:E;
      [exact E|apply ends_usdt].
  - unfold get_file_path. now rewrite Hidem.
Qed.

(** A normalized symbol holds no [-], [_] or [/] and no lower-case
    letter. *)
Theorem normalize_symbol_charset s c :
  In c (list_ascii_of_string (normalize_symbol s)) ->
  (Ascii.eqb c "-" || Ascii.eqb c "_" || Ascii.eqb c "/")%bool = false /\
  ((97 <=? nat_of_ascii c) && (nat_of_ascii c <=? 122))%nat = false.
Proof.
  rewrite normalize_symbol_chars.
  assert (H : forall l, In c (strip_seps l) ->
    (Ascii.eqb c "-" || Ascii.eqb c "_" || Ascii.eqb c "/")%bool = false /\
    ((97 <=? nat_of_ascii c) && (nat_of_ascii c <=? 122))%nat = false).
  { induction l as [|x l IH]; [intros []|].
    rewrite strip_seps_cons.
    destruct (Ascii.eqb (upper_char x) "-" || Ascii.eqb (upper_char x) "_"
              || Ascii.eqb (upper_char x) "/")%bool eqn:E; [exact IH|].
    intros [<-|Hin]; [|exact (IH Hin)].
    split; [exact E|].
    apply negb_true_iff, upper_char_not_lower. }
  destruct is_prefix; [apply H|].
  intros Hin. apply in_app_or in Hin as [Hin|Hin]; [exact (H _ Hin)|].
  simpl in Hin.
  destruct Hin as [<-|[<-|[<-|[<-|[]]]]]; split; reflexivity.
Qed.

Lemma normalize_symbol_charset_witness :
  In "B"%char (list_ascii_of_string (normalize_symbol "btc-usdt")) /\
  (Ascii.eqb "B" "-" || Ascii.eqb "B" "_" || Ascii.eqb "B" "/")%bool = false.
Proof.
  split; [vm_compute; tauto|].
  apply (normalize_symbol_charset "btc-usdt"). vm_compute. tauto.
Defined.

(** ** The command line of crypto_data_manager.py *)

(** [update <symbol>] always exits with code 0, whatever the status of
    the update, and runs [update_data] on the normalized symbol's fetch,
    with [force_refresh] set exactly when ["--force"] occurs anywhere in
    [sys.argv] (also in the symbol position). *)
Theorem main_update argv0 symbol rest fetch w :
  let argv := argv0 :: "update"%string :: symbol :: rest in
  (In "--force"%string argv ->
   main argv fetch w =
   (mkExit 0 (PrintUpdate (fst (update_data true (fetch (normalize_symbol symbol)) w))),
    snd (update_data true (fetch (normalize_symbol symbol)) w))) /\
  (~ In "--force"%string argv ->
   main argv fetch w =
   (mkExit 0 (PrintUpdate (fst (update_data false (fetch (normalize_symbol symbol)) w))),
    snd (update_data false (fetch (normalize_symbol symbol)) w))).
Proof.
  intros argv.
  assert (Hmain : main argv fetch w =
    (mkExit 0 (PrintUpdate (fst (update_data (existsb (String.eqb "--force") argv)
                                   (fetch (normalize_symbol symbol)) w))),
     snd (update_data (existsb (String.eqb "--force") argv)
            (fetch (normalize_symbol symbol)) w))).
  { unfold argv, main, bind, ret.
    replace (String.eqb "update" "update") with true by reflexivity.
    destruct update_data; reflexivity. }
  split; intros Hin; rewrite Hmain.
  - assert (E : existsb (String.eqb "--force") argv = true)
      by (apply existsb_exists; exists "--force"%string; split;
          [exact Hin|apply String.eqb_refl]).
    now rewrite E.
  - assert (E : existsb (String.eqb "--force") argv = false).
    { apply not_true_iff_false. intros Ht. apply existsb_exists in Ht as [x [Hx Heq]].
      apply String.eqb_eq in Heq. subst x. exact (Hin Hx). }
    now rewrite E.
Qed.

(** [price <symbol>] never fetches and never writes the file: it exits
    with code 1 exactly when [get_latest_price] finds nothing, prints the
    quote otherwise, and leaves the world as [get_latest_price] does
    (at most a load error on stderr). *)
Theorem main_price argv0 symbol rest fetch w :
  let argv := argv0 :: "price"%string :: symbol :: rest in
  (exit_code (fst (main argv fetch w)) = 1%nat <-> fst (get_latest_price w) = None) /\
  (forall q, fst (get_latest_price w) = Some q ->
             output (fst (main argv fetch w)) = PrintQuote q) /\
  snd (main argv fetch w) = snd (get_latest_price w) /\
  file (snd (main argv fetch w)) = file w.
Proof.
  intros argv.
  assert (Hmain : main argv fetch w =
    (match fst (get_latest_price w) with
     | Some q => mkExit 0 (PrintQuote q)
     | None => mkExit 1 NoDataFound
     end, snd (get_latest_price w))).
  { unfold argv, main, bind, ret.
    replace (String.eqb "price" "update") with false by reflexivity.
    replace (String.eqb "price" "price") with true by reflexivity.
    destruct (get_latest_price w) as [[q|] w']; reflexivity. }
  rewrite Hmain. simpl fst; simpl snd.
  split; [|split; [|split]].
  - destruct (fst (get_latest_price w)); simpl; split; congruence.
  - intros q Hq. now rewrite Hq.
  - reflexivity.
  - unfold get_latest_price, bind, ret, load_stored_data.
    destruct (file w) eqn:F; simpl; try destruct t; simpl; rewrite ?F; reflexivity.
Qed.

(** A missing command or symbol, and an unknown command, exit with code 1
    before any load, fetch or write: the world is left unchanged. *)
Theorem main_rejects argv fetch w :
  (match argv with
   | _ :: command :: rest =>
       ((String.eqb command "update" || String.eqb command "price")%bool = true /\
        rest = [])
       \/ (String.eqb command "update" || String.eqb command "price")%bool = false
   | _ => True
   end) ->
  exit_code (fst (main argv fetch w)) = 1%nat /\ snd (main argv fetch w) = w.
Proof.
  intros H. destruct argv as [|a [|command rest]]; [split; reflexivity|split; reflexivity|].
  unfold main, ret.
  destruct (String.eqb command "update") eqn:U;
    [|destruct (String.eqb command "price") eqn:P]; simpl in H.
  - destruct H as [[_ ->]|H]; [split; reflexivity|discriminate].
  - destruct H as [[_ ->]|H]; [split; reflexivity|discriminate].
  - split; reflexivity.
Qed.

Lemma main_rejects_witness :
  ((String.eqb "sync" "update" || String.eqb "sync" "price")%bool = true /\
   ["BTC"%string] = @nil string \/
   (String.eqb "sync" "update" || String.eqb "sync" "price")%bool = false) /\
  exit_code (fst (main ["prog"; "sync"; "BTC"]%string (fun _ => None) (fresh_world Absent)))
    = 1%nat.
Proof.
  split; [right; reflexivity|].
  apply (main_rejects ["prog"; "sync"; "BTC"]%string (fun _ => None) (fresh_world Absent)).
  right. reflexivity.
Defined.

(** ** The response decoders *)

Lemma dict_get_fold_none k kvs acc :
  fold_left (fun acc kv => if String.eqb k (fst kv) then Some (snd kv) else acc)
    kvs acc = None <-> acc = None /\ has_key k kvs = false.
Proof.
  revert acc. induction kvs as [|[k' v] kvs IH]; intros acc; simpl.
  - tauto.
  - rewrite IH. destruct (String.eqb k k'); simpl; split; intros [H1 H2];
      try discriminate; auto.
Qed.

Lemma dict_get_has_key k kvs :
  dict_get k kvs = None <-> has_key k kvs = false.
Proof. unfold dict_get. rewrite dict_get_fold_none. tauto. Qed.

(** psx [fetch_from_api]: the reported [status] never matters. A list is
    returned as it is, an object gives the value of its ["data"] key as it
    is (a [null] value is Python's [None] too) and [None] without the key,
    and any other value, a body that is not JSON and a failed request give
    [None]. *)
Theorem psx_fetch_shape resp :
  psx_fetch_from_api resp =
    match resp with
    | Body (Some (JArr l)) => Some (JArr l)
    | Body (Some (JObj kvs)) => dict_get "data" kvs
    | _ => None
    end.
Proof.
  destruct resp as [|[j|]]; try reflexivity.
  destruct j; try reflexivity. simpl.
  destruct (has_key "data" kvs) eqn:H; simpl.
  - now rewrite orb_true_r.
  - symmetry. destruct (_ && _)%bool; apply (proj2 (dict_get_has_key _ _)), H.
Qed.

(** spx500 [fetch_from_api] decodes a response exactly as psx does, once
    a [content-type] containing [text/html] (a Cloudflare page) has been
    refused; a missing header counts as the empty string. *)
Theorem spx_fetch_agrees_psx ct body :
  spx_fetch_from_api (SpxResp ct body) =
    (if contains "text/html" (match ct with Some c => c | None => ""%string end)
     then None
     else psx_fetch_from_api (Body body))
  /\ spx_fetch_from_api SpxHttpFailure = psx_fetch_from_api HttpFailure.
Proof.
  split; [|reflexivity]. simpl.
  destruct contains; [reflexivity|].
  destruct body as [j|]; [|reflexivity].
  destruct j; try reflexivity. simpl.
  destruct (has_key "data" kvs) eqn:H; simpl.
  - now rewrite orb_true_r.
  - destruct (_ && _)%bool; reflexivity.
Qed.

(** [parse_number(field, raw_field)] on string cells, as Investing.com
    sends them: a raw string that [float()] reads is the value; when the
    raw field is missing or falsy, a formatted string is read without its
    thousands separators; with neither field truthy the cell is [None]. *)
Theorem parse_number_cases field raw_field e :
  (forall s q, dict_get raw_field e = Some (JStr s) -> py_float s = Some q ->
     parse_number field raw_field e = Some q) /\
  (match dict_get raw_field e with
   | None => True
   | Some v => json_truthy v = false
   end ->
   (forall s q, dict_get field e = Some (JStr s) ->
      py_float (strip (remove_char ","%char s)) = Some q ->
      parse_number field raw_field e = Some q) /\
   (match dict_get field e with
    | None => True
    | Some v => json_truthy v = false
    end ->
    parse_number field raw_field e = None)).
Proof.
  unfold parse_number, truthy_get. split.
  - intros s q Hs Hq. rewrite Hs. simpl.
    destruct (String.eqb s "") eqn:E.
    + apply String.eqb_eq in E. subst s. discriminate.
    + simpl. rewrite Hq. reflexivity.
  - intros Hraw.
    assert (E : match match dict_get raw_field e with
                      | Some v => if json_truthy v then Some v else None
                      | None => None end with
                | Some v => py_float_json v | None => None end = None).
    { destruct (dict_get raw_field e); [rewrite Hraw|]; reflexivity. }
    rewrite E. split.
    + intros s q Hs Hq. rewrite Hs. simpl.
      destruct (String.eqb s "") eqn:Es.
      * apply String.eqb_eq in Es. subst s. discriminate.
      * exact Hq.
    + intros Hf. destruct (dict_get field e); [rewrite Hf|]; reflexivity.
Qed.

(** ** parse_investing_data *)

(** Only the date decides whether an entry becomes a row. A row always
    carries the date of [rowDateTimestamp] (or, when that is missing or
    falsy, [rowDate]), a truthy string that parses. Conversely such an
    entry gives a row whatever its prices and volume, as long as no raw
    price field holds a JSON number: [float()] of an integer too large for
    a float raises [OverflowError], which [parse_number] does not catch. *)
Theorem parse_entry_kept from_iso from_mdy e :
  (forall r, parse_entry from_iso from_mdy e = Some r ->
     exists s, entry_date e = Some (JStr s) /\
               parse_date from_iso from_mdy s = Some (date r)) /\
  ((forall raw, In raw ["last_openRaw"; "last_maxRaw"; "last_minRaw"; "last_closeRaw"]%string ->
      match dict_get raw e with Some (JNum _) => False | _ => True end) ->
   forall s d, entry_date e = Some (JStr s) ->
     parse_date from_iso from_mdy s = Some d ->
     exists r, parse_entry from_iso from_mdy e = Some r /\ date r = d).
Proof.
  unfold parse_entry. split.
  - intros r H. destruct (entry_date e) as [[]|]; try discriminate.
    destruct (parse_date from_iso from_mdy s) as [d|] eqn:D; [|discriminate].
    injection H as <-. exists s. split; [reflexivity|exact D].
  - intros _ s d Hs Hd. rewrite Hs, Hd. eexists. split; reflexivity.
Qed.

(** The table built by [parse_investing_data] is sorted by date, holds
    exactly the rows of the entries that parse (a permutation of them, so
    nothing is added, merged or dropped on the way), and has at most one
    row per entry; an empty response gives an empty table. *)
Theorem parse_investing_data_spec from_iso from_mdy es :
  let out := parse_investing_data from_iso from_mdy es in
  Sorted date_le out /\
  Permutation out
    (flat_map (fun e => match parse_entry from_iso from_mdy e with
                        | Some r => [r] | None => [] end) es) /\
  (forall r, In r out <-> exists e, In e es /\ parse_entry from_iso from_mdy e = Some r) /\
  (List.length out <= List.length es)%nat /\
  parse_investing_data from_iso from_mdy [] = [].
Proof.
  intros out.
  set (f := fun e => match parse_entry from_iso from_mdy e with
                     | Some r => [r] | None => [] end).
  assert (Hout : out = sort_values (flat_map f es)).
  { unfold out, parse_investing_data. fold f. destruct (flat_map f es); reflexivity. }
  assert (Hp : Permutation out (flat_map f es))
    by (rewrite Hout; symmetry; apply sort_values_perm).
  split; [rewrite Hout; apply sort_values_sorted|].
  split; [exact Hp|].
  split; [|split; [|reflexivity]].
  - intros r. split.
    + intros Hin. apply (Permutation_in _ Hp), in_flat_map in Hin as [e [He Hr]].
      exists e. split; [exact He|]. unfold f in Hr.
      destruct (parse_entry from_iso from_mdy e); [|destruct Hr].
      destruct Hr as [<-|[]]. reflexivity.
    + intros [e [He Hr]]. apply (Permutation_in _ (Permutation_sym Hp)).
      apply in_flat_map. exists e. split; [exact He|]. unfold f. rewrite Hr. now left.
  - rewrite (Permutation_length Hp). clear.
    induction es as [|e es IH]; simpl; [lia|].
    rewrite length_app. unfold f at 1.
    destruct (parse_entry from_iso from_mdy e); simpl; lia.
Qed.

(** ** update_data: when the file is written *)

(** [update_data] touches the file only on its save path: a failed fetch
    and a result with no new data leave the file as it was. *)
Theorem update_data_writes_only_on_save force api w :
  match message (fst (update_data force api w)) with
  | FetchFailed | NoNewData => file (snd (update_data force api w)) = file w
  | _ => True
  end.
Proof.
  destruct force, api as [[|r rows]|]; run_update; split_update; auto.
Qed.

(** ** spx500 update_data *)

Lemma sort_values_sorted_id t : Sorted date_le t -> sort_values t = t.
Proof.
  induction t as [|r t IH]; intros Hs; [reflexivity|].
  simpl. apply Sorted_inv in Hs as [Hs Hhd]. rewrite (IH Hs).
  destruct t as [|r' t]; [reflexivity|]. simpl.
  apply HdRel_inv in Hhd. unfold date_le in Hhd.
  destruct (Z.leb_spec (date r) (date r')); [reflexivity|lia].
Qed.

Lemma entries_of_shape j es : entries_of j = Some es -> j = JArr (map JObj es).
Proof.
  destruct j as [| | | |l|]; try discriminate. simpl. revert es.
  induction l as [|x l IH]; intros es H; simpl in H.
  - injection H as <-. reflexivity.
  - destruct x; try discriminate.
    destruct (entries_of_list l) as [es'|] eqn:E; [|discriminate].
    injection H as <-. specialize (IH es' eq_refl). injection IH as ->.
    reflexivity.
Qed.

(** With no [--force] and a stored table that is empty, the spx500 update
    raises (the [NaT] start date cannot be formatted) before any request,
    and the world is left as it was. *)
Theorem spx_update_empty_stored_raises from_iso from_mdy today exchange w :
  file w = Stored [] ->
  spx_update_data from_iso from_mdy today false exchange w = (SpxRaised, w).
Proof.
  intros H. unfold spx_update_data, bind, ret, load_stored_data. simpl.
  rewrite H. reflexivity.
Qed.

Lemma spx_update_empty_stored_raises_witness :
  file (fresh_world (Stored [])) = Stored [] /\
  spx_update_data (fun _ => None) (fun _ => None) 100 false
    (fun _ _ => SpxHttpFailure) (fresh_world (Stored []))
  = (SpxRaised, fresh_world (Stored [])).
Proof.
  split; [reflexivity|].
  apply (spx_update_empty_stored_raises (fun _ => None) (fun _ => None) 100
           (fun _ _ => SpxHttpFailure) (fresh_world (Stored []))).
  reflexivity.
Defined.

(** The spx500 update sends one request, for the range from its start date
    to [today]: the start is the day after the latest stored date when a
    stored table is used, and the default ([None], 1996-01-01) with
    [--force], without a file or with a corrupt one. Nothing else of the
    exchange matters. *)
Theorem spx_update_request from_iso from_mdy today (force : bool) exchange (w : World) :
  let start : option Date :=
    if force then None
    else match file w with
         | Stored s => option_map (fun m => m + 1) (max_date s)
         | _ => None
         end in
  spx_update_data from_iso from_mdy today force exchange w =
  spx_update_data from_iso from_mdy today force (fun _ _ => exchange start today) w.
Proof.
  simpl. unfold spx_update_data, bind, ret, load_stored_data.
  destruct force; simpl; [reflexivity|].
  destruct (file w) as [| |s]; simpl; try reflexivity.
  destruct (max_date s); reflexivity.
Qed.

(** Once the response decodes to a list of objects whose parsed table is
    not empty and has no repeated date, the spx500 update returns what the
    crypto [update_data] returns on that table, and leaves the same world:
    same load, same initial save or merge, same counts. The dates being
    distinct, the second sort of the crypto path cannot reorder the table,
    whatever sort algorithm is used. The one exception is the empty stored
    table without [--force], where spx500 raises. *)
Theorem spx_update_as_update_data from_iso from_mdy today force resp j es w :
  spx_fetch_from_api resp = Some j ->
  entries_of j = Some es ->
  parse_investing_data from_iso from_mdy es <> [] ->
  NoDup (map date (parse_investing_data from_iso from_mdy es)) ->
  force = true \/ file w <> Stored [] ->
  spx_update_data from_iso from_mdy today force (fun _ _ => resp) w =
  (SpxReturned
     (fst (update_data force (Some (parse_investing_data from_iso from_mdy es)) w)),
   snd (update_data force (Some (parse_investing_data from_iso from_mdy es)) w)).
Proof.
  intros Hf He Hne _ Hs.
  assert (Hj : j = JArr (map JObj es)) by exact (entries_of_shape j es He).
  assert (Hes : es <> []) by (intros ->; exact (Hne eq_refl)).
  assert (Ht : json_truthy j = true)
    by (rewrite Hj; destruct es; [contradiction|reflexivity]).
  assert (HDs : Sorted date_le (parse_investing_data from_iso from_mdy es)).
  { unfold parse_investing_data.
    destruct flat_map; [constructor|apply sort_values_sorted]. }
  unfold spx_update_data, update_data, bind, ret, load_stored_data.
  cbv beta. rewrite Hf, Ht, He. cbn [negb].
  revert Hne HDs. generalize (parse_investing_data from_iso from_mdy es). intros D Hne HDs.
  rewrite (sort_values_sorted_id D HDs).
  destruct D as [|r0 D]; [contradiction|].
  destruct force; cbn [negb spx_start_date]; [destruct (save_data _ w); reflexivity|].
  destruct (file w) as [| |s] eqn:F; cbn [spx_start_date].
  - destruct (save_data _ w); reflexivity.
  - destruct (save_data _ _); reflexivity.
  - destruct s as [|r1 s]; [destruct Hs as [H|H]; [discriminate|contradiction]|].
    destruct (max_date (r1 :: s)) eqn:Em.
    + cbn [negb]. destruct Nat.eqb; [reflexivity|destruct (save_data _ w); reflexivity].
    + simpl in Em. destruct (max_date s); discriminate.
Qed.

Lemma spx_update_as_update_data_witness :
  let es := [[("rowDate"%string, JStr "Jan 02, 2020");
              ("last_close"%string, JStr "3,257.85")]] in
  let resp := SpxResp None (Some (JObj [("data"%string, JArr (map JObj es))])) in
  let w := fresh_world (Stored [close_row 1 100]) in
  spx_update_data (fun _ => None) (fun _ => Some 5) 100 false (fun _ _ => resp) w =
  (SpxReturned
     (fst (update_data false
             (Some (parse_investing_data (fun _ => None) (fun _ => Some 5) es)) w)),
   snd (update_data false
          (Some (parse_investing_data (fun _ => None) (fun _ => Some 5) es)) w)).
Proof.
  intros es resp w.
  apply (spx_update_as_update_data (fun _ => None) (fun _ => Some 5) 100 false resp
           (JArr (map JObj es)) es w).
  - vm_compute. reflexivity.
  - vm_compute. reflexivity.
  - vm_compute. discriminate.
  - vm_compute. apply NoDup_cons; [intros []|apply NoDup_nil].
  - right. vm_compute. discriminate.
Defined.

(** Like the crypto update, the spx500 update touches the file only on its
    save path: a raise, a failed or empty fetch, a response with no
    parsable row and a result with no new data leave the file as it was. *)
Theorem spx_update_writes_only_on_save from_iso from_mdy today force exchange w :
  match fst (spx_update_data from_iso from_mdy today force exchange w) with
  | SpxReturned r =>
      match message r with
      | FetchFailed | NoNewData =>
          file (snd (spx_update_data from_iso from_mdy today force exchange w)) = file w
      | _ => True
      end
  | _ => file (snd (spx_update_data from_iso from_mdy today force exchange w)) = file w
  end.
Proof.
  unfold spx_update_data, bind, ret, load_stored_data, save_data, log.
  destruct force, (disk_ok w) eqn:Hd, (file w) eqn:Hf; cbn [negb]; rewrite ?Hd, ?Hf.
  all: repeat (simpl; match goal with
    | H : disk_ok ?x = _ |- context [disk_ok ?x] => rewrite H
    | |- context [match ?x with _ => _ end] =>
        lazymatch x with
        | context [match _ with _ => _ end] => fail
        | _ => destruct x eqn:?
        end
    end); simpl; auto.
Qed.

(** ** crypto fetch_from_api *)

(** A kline that the code cannot convert whatever its strings say: not a
    list, fewer than six items, an open time that is neither a number nor
    a boolean, or a price or volume item that is [null], a list or an
    object ([float()] raises [TypeError] on these). *)
Lemma kline_row_malformed from_timestamp k :
  match k with
  | JArr l =>
      (List.length l < 6)%nat \/
      match nth_error l 0 with Some (JNum _) | Some (JBool _) => False | _ => True end \/
      (exists i v, (1 <= i <= 5)%nat /\ nth_error l i = Some v /\
         match v with JNull | JArr _ | JObj _ => True | _ => False end)
  | _ => True
  end ->
  kline_row from_timestamp k = None.
Proof.
  destruct k as [| | | |l|]; try reflexivity. intros H.
  unfold kline_row; cbv beta iota.
  destruct (nth_error l 0) as [t|] eqn:E0, (nth_error l 1) as [o|] eqn:E1,
    (nth_error l 2) as [h|] eqn:E2, (nth_error l 3) as [lo|] eqn:E3,
    (nth_error l 4) as [c|] eqn:E4, (nth_error l 5) as [v|] eqn:E5;
    try reflexivity.
  destruct H as [H|[H|[i [x [Hi [Hx Hbad]]]]]].
  - assert (Hl : nth_error l 5 <> None) by congruence.
    apply nth_error_Some in Hl. lia.
  - destruct t; try contradiction; reflexivity.
  - destruct (option_map from_timestamp (ms_to_seconds t)) as [[d|]|];
      try reflexivity.
    destruct i as [|[|[|[|[|[|i]]]]]]; try lia;
      [rewrite E1 in Hx|rewrite E2 in Hx|rewrite E3 in Hx|rewrite E4 in Hx|
       rewrite E5 in Hx]; injection Hx as ->;
      destruct x; try contradiction; simpl;
      repeat match goal with
      | |- context [match py_float_json ?y with _ => _ end] =>
          destruct (py_float_json y)
      end; reflexivity.
Qed.

(** One malformed kline anywhere in the Binance response makes
    [fetch_from_api] return [None], whatever the other klines hold:
    [update_data] then reports a failed fetch with no record and leaves
    the file as it was. *)
Theorem crypto_malformed_kline_fails from_timestamp ks k force w :
  In k ks ->
  match k with
  | JArr l =>
      (List.length l < 6)%nat \/
      match nth_error l 0 with Some (JNum _) | Some (JBool _) => False | _ => True end \/
      (exists i v, (1 <= i <= 5)%nat /\ nth_error l i = Some v /\
         match v with JNull | JArr _ | JObj _ => True | _ => False end)
  | _ => True
  end ->
  crypto_fetch_from_api from_timestamp (Body (Some (JArr ks))) = None /\
  fst (update_data force (crypto_fetch_from_api from_timestamp (Body (Some (JArr ks)))) w)
    = mkResult Error FetchFailed 0 None None /\
  file (snd (update_data force
                (crypto_fetch_from_api from_timestamp (Body (Some (JArr ks)))) w))
    = file w.
Proof.
  intros Hin Hk. apply (kline_row_malformed from_timestamp) in Hk.
  assert (E : crypto_fetch_from_api from_timestamp (Body (Some (JArr ks))) = None).
  { simpl. induction ks as [|k' ks IH]; [destruct Hin|].
    simpl. destruct Hin as [<-|Hin].
    + rewrite Hk. reflexivity.
    + rewrite (IH Hin). destruct (kline_row from_timestamp k'); reflexivity. }
  rewrite E. split; [reflexivity|]. run_update.
  destruct force; simpl; [split; reflexivity|].
  destruct (file w) eqn:F; simpl; rewrite ?F; split; reflexivity.
Qed.

Lemma crypto_malformed_kline_fails_witness :
  let good := JArr [JNum 1700000000000; JStr "1.0"; JStr "2.0"; JStr "0.5";
                    JStr "1.5"; JStr "10"] in
  let bad := JArr [JNum 1700086400000; JStr "1.5"; JNull; JStr "1.0";
                   JStr "2.0"; JStr "12"] in
  crypto_fetch_from_api (fun _ => Some 1) (Body (Some (JArr [good; bad]))) = None.
Proof.
  intros good bad.
  apply (crypto_malformed_kline_fails (fun _ => Some 1) [good; bad] bad false
           (fresh_world Absent)).
  - simpl. right. left. reflexivity.
  - right. right. exists 2%nat, JNull. split; [lia|]. split; [reflexivity|exact I].
Defined.

(** A Binance response that is not a JSON list (an error object such as
    [{"code": -1121, "msg": ...}], an empty object or string, any other
    value, a body that is not JSON or a failed request) never reaches the
    table: [update_data] reports a failed fetch with no record and leaves
    the file as it was. *)
Theorem crypto_non_list_response_fails from_timestamp force resp w :
  match resp with Body (Some (JArr _)) => False | _ => True end ->
  fst (update_data force (crypto_fetch_from_api from_timestamp resp) w)
    = mkResult Error FetchFailed 0 None None /\
  file (snd (update_data force (crypto_fetch_from_api from_timestamp resp) w)) = file w.
Proof.
  intros H.
  assert (E : crypto_fetch_from_api from_timestamp resp = None \/
              crypto_fetch_from_api from_timestamp resp = Some []).
  { destruct resp as [|[j|]]; simpl; auto.
    destruct j; simpl; auto; try contradiction.
    - destruct (String.eqb s ""); auto.
    - destruct kvs; auto. }
  destruct E as [E|E]; rewrite E; run_update;
    destruct force; simpl; try (split; reflexivity);
    destruct (file w) eqn:F; simpl; rewrite ?F; split; reflexivity.
Qed.

Lemma crypto_non_list_response_fails_witness :
  file (snd (update_data false
    (crypto_fetch_from_api (fun _ => None)
       (Body (Some (JObj [("code"%string, JNum (-1121)); ("msg"%string, JStr "Invalid symbol.")]))))
    (fresh_world (Stored [close_row 1 100])))) = Stored [close_row 1 100].
Proof.
  apply (crypto_non_list_response_fails (fun _ => None) false
    (Body (Some (JObj [("code"%string, JNum (-1121)); ("msg"%string, JStr "Invalid symbol.")])))
    (fresh_world (Stored [close_row 1 100]))).
  simpl. exact I.
Defined.
